(** * concurrency/config.py: the settings helper [AppSettings]

    A shallow embedding of [src/concurrency/config.py].  Python objects are
    attribute dictionaries ([gmap string value]); the methods of
    [AppSettings] are computations in a state-and-exception monad whose
    state holds the instance, the global settings object and the
    [setting_changed] signal.  An exception leaves the state as it was when
    it was raised, as in Python.

    What is Django's is not modelled beyond its interface:
    - [get_callable] is a parameter, a function from a dotted path to a
      callable or an exception;
    - [setting_changed.send] is recorded in the list [sent]; the receivers
      it reaches during [__init__] are not this instance (its handler is
      connected after the loop) and are taken to leave the instance and
      the settings object alone;
    - settings names are ASCII: [upper] is [str.upper] on ASCII text. *)

From Stdlib Require Import ZArith Ascii String List Lia.
From stdpp Require Import base option list gmap strings.

Local Open Scope Z_scope.

(** ** Python values and exceptions *)

(** The values a setting can hold that the module tells apart: it only asks
    whether a value is a string ([isinstance(value, six.string_types)]),
    whether it is callable ([callable(value)]), and combines [POLICY] with
    integers.  A callable object is named by its dotted path. *)
Inductive value : Type :=
| VNone
| VBool (b : bool)
| VInt (n : Z)
| VStr (s : string)
| VCallable (path : string).

Inductive exn : Type :=
| ImproperlyConfigured (msg : string)
| AttributeError (attr : string)
| TypeError
| ViewDoesNotExist (path : string).

Global Instance value_eq_dec : EqDecision value.
Proof. solve_decision. Defined.

Global Instance exn_eq_dec : EqDecision exn.
Proof. solve_decision. Defined.

Definition is_string (v : value) : bool :=
  match v with VStr _ => true | _ => false end.

Definition callable (v : value) : bool :=
  match v with VCallable _ => true | _ => false end.

(** ** Strings *)

(** [str.upper] on one ASCII character: [a]..[z] move to [A]..[Z]. *)
Definition upper_ascii (c : ascii) : ascii :=
  let n := nat_of_ascii c in
  if ((97 <=? n) && (n <=? 122))%nat then ascii_of_nat (n - 32) else c.

Fixpoint upper (s : string) : string :=
  match s with
  | EmptyString => EmptyString
  | String c s' => String (upper_ascii c) (upper s')
  end.

(** The slice [s[n:]]; past the end it is the empty string. *)
Fixpoint slice_from (n : nat) (s : string) : string :=
  match n, s with
  | O, _ => s
  | S _, EmptyString => EmptyString
  | S n', String _ s' => slice_from n' s'
  end.

(** [s.startswith(p)] *)
Definition startswith (s p : string) : bool := String.prefix p s.

(** ** Module constants *)

Definition CONCURRENCY_LIST_EDITABLE_POLICY_SILENT : Z := 1.
Definition CONCURRENCY_LIST_EDITABLE_POLICY_ABORT_ALL : Z := 2.
Definition CONCURRENCY_POLICY_RAISE : Z := 4.
Definition CONCURRENCY_POLICY_CALLBACK : Z := 8.

Definition CONFLICTS_POLICIES : list Z :=
  [CONCURRENCY_POLICY_RAISE; CONCURRENCY_POLICY_CALLBACK].
Definition LIST_EDITABLE_POLICIES : list Z :=
  [CONCURRENCY_LIST_EDITABLE_POLICY_SILENT;
   CONCURRENCY_LIST_EDITABLE_POLICY_ABORT_ALL].

(** The builtin [sum] on a list of integers. *)
Definition py_sum (l : list Z) : Z := fold_left Z.add l 0.

(** ** State and monad *)

Record state : Type := State {
  self : gmap string value;       (* the instance's attributes *)
  settings : gmap string value;   (* django.conf.settings *)
  sent : list (string * value);   (* setting_changed.send calls, oldest first *)
  connected : bool                (* self._handler is a receiver of setting_changed *)
}.

Definition M (A : Type) : Type := state → (exn + A) * state.

Global Instance M_ret : MRet M := λ A a st, (inr a, st).

Global Instance M_bind : MBind M := λ A B k m st,
  match m st with
  | (inl e, st') => (inl e, st')
  | (inr a, st') => k a st'
  end.

Definition raise {A : Type} (e : exn) : M A := λ st, (inl e, st).

(** Lift a pure result that may be an exception. *)
Definition lift {A : Type} (r : exn + A) : M A := λ st, (r, st).

(** [self.name] *)
Definition get_self (name : string) : M value := λ st,
  match self st !! name with
  | Some v => (inr v, st)
  | None => (inl (AttributeError name), st)
  end.

(** [setattr(self, name, v)] *)
Definition set_self (name : string) (v : value) : M unit := λ st,
  (inr tt, State (<[name := v]> (self st)) (settings st) (sent st) (connected st)).

(** [getattr(settings, name, default)] *)
Definition getattr_settings (name : string) (dflt : value) : M value := λ st,
  (inr (default dflt (settings st !! name)), st).

(** [setattr(settings, name, v)] *)
Definition setattr_settings (name : string) (v : value) : M unit := λ st,
  (inr tt, State (self st) (<[name := v]> (settings st)) (sent st) (connected st)).

(** [setting_changed.send(self, setting=setting, value=v)].  Dispatch is
    Django's; the call is recorded.  During [__init__] the instance's own
    handler is not connected yet. *)
Definition send (setting : string) (v : value) : M unit := λ st,
  (inr tt, State (self st) (settings st) (sent st ++ [(setting, v)]) (connected st)).

(** [setting_changed.connect(self._handler)] *)
Definition connect : M unit := λ st,
  (inr tt, State (self st) (settings st) (sent st) true).

(** [len(v)] for the values of the model: only strings have a length. *)
Definition py_len (v : value) : M nat :=
  match v with VStr s => mret (String.length s) | _ => raise TypeError end.

(** A string operand, for [+] with a string and for [startswith]. *)
Definition as_str (v : value) : M string :=
  match v with VStr s => mret s | _ => raise TypeError end.

(** An integer operand of [|]; [bool] is a subclass of [int]. *)
Definition as_int (v : value) : M Z :=
  match v with
  | VInt n => mret n
  | VBool b => mret (Z.b2z b)
  | _ => raise TypeError
  end.

Fixpoint for_each {A : Type} (body : A → M unit) (l : list A) : M unit :=
  match l with
  | [] => mret tt
  | x :: l' => body x ;; for_each body l'
  end.

(** ** class AppSettings *)

Definition defaults : list (string * value) :=
  [("ENABLED", VBool true);
   ("SANITY_CHECK", VBool true);
   ("FIELD_SIGNER", VStr "concurrency.forms.VersionFieldSigner");
   ("POLICY", VInt (Z.lor CONCURRENCY_LIST_EDITABLE_POLICY_SILENT
                          CONCURRENCY_POLICY_RAISE));
   ("CALLBACK", VStr "concurrency.views.callback");
   ("HANDLER409", VStr "concurrency.views.conflict")].

(** The messages of the exceptions the module raises. *)
Definition list_editable_msg : string :=
  "Invalid value for `CONCURRENCY_POLICY`: Use only one of `CONCURRENCY_LIST_EDITABLE_*` flags".
Definition conflicts_msg : string :=
  "Invalid value for `CONCURRENCY_POLICY`: Use only one of `CONCURRENCY_POLICY_*` flags".
Definition callback_msg : string :=
  "`CALLBACK` must be a callable or a fullpath to callable".

Definition _check_config : M unit :=
  policy ← get_self "POLICY";
  p ← as_int policy;
  let list_editable_policy := Z.lor p (py_sum LIST_EDITABLE_POLICIES) in
  (if list_editable_policy =? py_sum LIST_EDITABLE_POLICIES
   then raise (ImproperlyConfigured list_editable_msg)
   else mret tt) ;;
  policy ← get_self "POLICY";
  p ← as_int policy;
  let conflict_policy := Z.lor p (py_sum CONFLICTS_POLICIES) in
  if conflict_policy =? py_sum CONFLICTS_POLICIES
  then raise (ImproperlyConfigured conflicts_msg)
  else mret tt.

Section AppSettings.

(** [django.core.urlresolvers.get_callable]: resolves a dotted path to a
    callable or raises. *)
Variable get_callable : string → exn + value.

Definition _set_attr (prefix_name : string) (v : value) : M unit :=
  p ← get_self "prefix";
  n ← py_len p;
  let name := slice_from (n + 1) prefix_name in
  (if String.eqb name "CALLBACK" then
     func ← (if is_string v then
               s ← as_str v; lift (get_callable s)
             else if callable v then
               mret v
             else
               raise (ImproperlyConfigured callback_msg));
     set_self "_callback" func
   else mret tt) ;;
  set_self name v.

(** The signal's [sender] and extra keyword arguments are not used. *)
Definition _handler (setting : string) (v : value) : M unit :=
  p ← get_self "prefix";
  p ← as_str p;
  if startswith setting p then _set_attr setting v else mret tt.

(** One turn of the loop over [self.defaults.items()]. *)
Definition init_step (entry : string * value) : M unit :=
  let '(name, dflt) := entry in
  p ← get_self "prefix";
  p ← as_str p;
  let prefix_name := upper (p +:+ "_" +:+ name) in
  v ← getattr_settings prefix_name dflt;
  _set_attr prefix_name v ;;
  setattr_settings prefix_name v ;;
  send prefix_name v.

Definition __init__ (prefix : string) : M unit :=
  set_self "prefix" (VStr prefix) ;;
  for_each init_step defaults ;;
  connect.

(** [AppSettings(prefix)]: a new object, then [__init__]. *)
Definition AppSettings (prefix : string) : M unit := λ st,
  __init__ prefix (State ∅ (settings st) (sent st) false).

End AppSettings.

(** ** Vocabulary of the statements *)

(** The settings key [__init__] builds for [name] under [prefix]. *)
Definition settings_key (prefix name : string) : string :=
  upper (prefix +:+ "_" +:+ name).

(** [POLICY] includes both flags of [group], in the words of the messages
    ("Use only one of ... flags"). *)
Definition has_all (policy : Z) (group : list Z) : bool :=
  Z.land policy (py_sum group) =? py_sum group.

Definition mutually_exclusive_violated (policy : Z) : bool :=
  has_all policy LIST_EDITABLE_POLICIES || has_all policy CONFLICTS_POLICIES.

(** The value bound to [func] in [_set_attr], or the exception raised
    before any assignment. *)
Definition resolve_callback (get_callable : string → exn + value) (v : value)
    : exn + value :=
  match v with
  | VStr s => get_callable s
  | VCallable _ => inr v
  | _ => inl (ImproperlyConfigured callback_msg)
  end.

(** The state after [setattr(self, name, v)]. *)
Definition store (name : string) (v : value) (st : state) : state :=
  State (<[name := v]> (self st)) (settings st) (sent st) (connected st).

(** The keys of a defaults dictionary as [__init__] needs them: upper case,
    so that the slice of the settings key gives the key back, and
    distinct, as in any dictionary. *)
Definition keys_ok (l : list (string * value)) : Prop :=
  Forall (λ e, upper e.1 = e.1) l ∧ NoDup l.*1.

(** The value [__init__] resolves for [name] under the prefix [p]: the
    setting when the settings object has it, the default otherwise. *)
Definition resolved (p : string) (st : state) (name : string) (dflt : value)
    : value :=
  default dflt (settings st !! settings_key p name).

(** The state after one turn of the loop of [__init__] has stored [v]. *)
Definition loaded_entry (key name : string) (v : value) (st : state) : state :=
  State (<[name := v]> (self st)) (<[key := v]> (settings st))
        (sent st ++ [(key, v)]) (connected st).

(** The instance and the environment [__init__] starts its loop in. *)
Definition init_state (p : string) (st : state) : state :=
  State (<["prefix" := VStr p]> ∅) (settings st) (sent st) false.

(** The instance holds a [CALLBACK] and [_callback] is what it resolves
    to. *)
Definition callback_in_sync (get_callable : string → exn + value) (st : state)
    : Prop :=
  ∃ v f, self st !! "CALLBACK" = Some v ∧
         resolve_callback get_callable v = inr f ∧
         self st !! "_callback" = Some f.

(** ** Sample inputs *)

(** A [get_callable] under which every dotted path resolves. *)
Definition resolve_any (path : string) : exn + value := inr (VCallable path).

(** A process in which nothing has been sent yet, with settings [cfg]. *)
Definition fresh (cfg : gmap string value) : state := State ∅ cfg [] false.

(** An instance whose only attribute is [POLICY]. *)
Definition with_policy (p : Z) : state :=
  State {[ "POLICY" := VInt p ]} ∅ [] false.

(** Both list-editable flags, [SILENT | ABORT_ALL], in the settings. *)
Definition conflicting_settings : gmap string value :=
  {[ "CONCURRENCY_POLICY" :=
       VInt (Z.lor CONCURRENCY_LIST_EDITABLE_POLICY_SILENT
                   CONCURRENCY_LIST_EDITABLE_POLICY_ABORT_ALL) ]}.

(** The module-level instance [conf = AppSettings('CONCURRENCY')] on
    settings that define none of its keys. *)
Definition conf : (exn + unit) * state :=
  AppSettings resolve_any "CONCURRENCY" (fresh ∅).

(** Settings whose [CALLBACK] is neither a string nor callable. *)
Definition bad_callback_settings : gmap string value :=
  {[ "CONCURRENCY_CALLBACK" := VInt 100 ]}.

(** [AppSettings('CONCURRENCY')] on those settings. *)
Definition bad_conf : (exn + unit) * state :=
  AppSettings resolve_any "CONCURRENCY" (fresh bad_callback_settings).

(** An instance constructed with the lower-case prefix [app]. *)
Definition lower_app : state := State {[ "prefix" := VStr "app" ]} ∅ [] false.

(** An instance with prefix [APP] and nothing else. *)
Definition app : state := State {[ "prefix" := VStr "APP" ]} ∅ [] false.

(** ** Strings: [upper], slices and prefixes *)

Lemma upper_app (a b : string) : upper (a +:+ b) = upper a +:+ upper b.
Proof. induction a as [|c a IH]; simpl; [done | by rewrite IH]. Qed.

Lemma startswith_app (p s : string) : startswith (p +:+ s) p = true.
Proof.
  unfold startswith. induction p as [|c p IH]; simpl; [by destruct s |].
  destruct (ascii_dec c c); [done | congruence].
Qed.

Lemma append_inj_r (a b c : string) : a +:+ b = a +:+ c → b = c.
Proof. induction a as [|x a IH]; simpl; [done | intros [= H]; auto]. Qed.

(** Dropping [len(prefix) + 1] characters of the key leaves the upper-cased
    name, whatever the case of the prefix. *)
Lemma slice_settings_key (prefix name : string) :
  slice_from (String.length prefix + 1) (settings_key prefix name) = upper name.
Proof.
  unfold settings_key. rewrite upper_app.
  induction prefix as [|c p IH]; [reflexivity | exact IH].
Qed.

Lemma slice_prefixed (prefix name : string) :
  slice_from (String.length prefix + 1) (prefix +:+ "_" +:+ name) = name.
Proof. induction prefix as [|c p IH]; simpl; [by destruct name | done]. Qed.

Lemma settings_key_inj (prefix n1 n2 : string) :
  upper n1 = n1 → upper n2 = n2 →
  settings_key prefix n1 = settings_key prefix n2 → n1 = n2.
Proof.
  unfold settings_key. intros H1 H2. rewrite !upper_app, H1, H2.
  intros H%append_inj_r. simpl in H. by injection H.
Qed.

(** ** [_check_config] *)

(** [POLICY | mask == mask] holds only when [POLICY] has no bit outside
    [mask]; a negative [POLICY] never passes it. *)
Lemma lor_absorbed_bound (p m k : Z) :
  0 ≤ k → 0 ≤ m < 2 ^ k → Z.lor p m = m → 0 ≤ p < 2 ^ k.
Proof.
  intros Hk Hm Heq.
  assert (Hhi : Z.shiftr p k = 0).
  { apply (f_equal (λ x, Z.shiftr x k)) in Heq.
    rewrite Z.shiftr_lor, (Z.shiftr_div_pow2 m), Z.div_small in Heq by lia.
    by rewrite Z.lor_0_r in Heq. }
  rewrite Z.shiftr_div_pow2 in Hhi by done.
  apply Z.div_small_iff in Hhi; lia.
Qed.

Lemma lor_list_editable (p : Z) :
  Z.lor p (py_sum LIST_EDITABLE_POLICIES) = py_sum LIST_EDITABLE_POLICIES
  ↔ p ∈ [0; 1; 2; 3].
Proof.
  change (py_sum LIST_EDITABLE_POLICIES) with 3. split.
  - intros H%(lor_absorbed_bound p 3 2); [| lia | lia].
    assert (p = 0 ∨ p = 1 ∨ p = 2 ∨ p = 3) as Hp by lia.
    rewrite !elem_of_cons, elem_of_nil. tauto.
  - rewrite !elem_of_cons, elem_of_nil. intros [->|[->|[->|[->|[]]]]]; done.
Qed.

Lemma lor_conflicts (p : Z) :
  Z.lor p (py_sum CONFLICTS_POLICIES) = py_sum CONFLICTS_POLICIES
  ↔ p ∈ [0; 4; 8; 12].
Proof.
  change (py_sum CONFLICTS_POLICIES) with 12. split.
  - intros H. pose proof (lor_absorbed_bound p 12 4 ltac:(lia) ltac:(lia) H) as Hb.
    assert (p = 0 ∨ p = 1 ∨ p = 2 ∨ p = 3 ∨ p = 4 ∨ p = 5 ∨ p = 6 ∨ p = 7 ∨
            p = 8 ∨ p = 9 ∨ p = 10 ∨ p = 11 ∨ p = 12 ∨ p = 13 ∨ p = 14 ∨ p = 15)
      as Hp by lia.
    rewrite !elem_of_cons, elem_of_nil.
    repeat (destruct Hp as [-> | Hp]; [first [by auto 6 | by vm_compute in H] |]).
    subst p. by vm_compute in H.
  - rewrite !elem_of_cons, elem_of_nil. intros [->|[->|[->|[->|[]]]]]; done.
Qed.

(** [_check_config] on an integer [POLICY], test by test. *)
Lemma check_config_run st (p : Z) :
  self st !! "POLICY" = Some (VInt p) →
  _check_config st =
    if Z.lor p (py_sum LIST_EDITABLE_POLICIES) =? py_sum LIST_EDITABLE_POLICIES
    then (inl (ImproperlyConfigured list_editable_msg), st)
    else if Z.lor p (py_sum CONFLICTS_POLICIES) =? py_sum CONFLICTS_POLICIES
    then (inl (ImproperlyConfigured conflicts_msg), st)
    else (inr tt, st).
Proof.
  intros HP. unfold _check_config, mbind, M_bind, get_self. rewrite HP. simpl.
  destruct (Z.lor p _ =? _); [done |]. simpl. rewrite HP. simpl.
  by destruct (Z.lor p _ =? _).
Qed.

(** The integers on which [_check_config] raises: those with no flag of one
    of the two groups and no other bit. *)
Lemma check_config_raises_iff st (p : Z) :
  self st !! "POLICY" = Some (VInt p) →
  (∃ msg, _check_config st = (inl (ImproperlyConfigured msg), st))
  ↔ p ∈ [0; 1; 2; 3; 4; 8; 12].
Proof.
  intros HP. rewrite (check_config_run st p HP).
  destruct (Z.eqb_spec (Z.lor p (py_sum LIST_EDITABLE_POLICIES))
              (py_sum LIST_EDITABLE_POLICIES)) as [H1|H1];
    rewrite lor_list_editable in H1.
  - split; [intros _ | by eauto].
    revert H1. rewrite !elem_of_cons, !elem_of_nil. tauto.
  - destruct (Z.eqb_spec (Z.lor p (py_sum CONFLICTS_POLICIES))
                (py_sum CONFLICTS_POLICIES)) as [H2|H2];
      rewrite lor_conflicts in H2.
    + split; [intros _ | by eauto].
      revert H2. rewrite !elem_of_cons, !elem_of_nil. tauto.
    + split; [by intros [? [=]] |].
      revert H1 H2. rewrite !elem_of_cons, !elem_of_nil. tauto.
Qed.

(** C2. [_check_config] does not decide whether [POLICY] includes both
    flags of a group.  With all four flags set ([POLICY = 15]) both groups
    are violated and it returns without raising; with the single flag
    [CONCURRENCY_LIST_EDITABLE_POLICY_SILENT] ([POLICY = 1]) no group is
    violated and it raises.  On the four combinations of one list-editable
    flag with one conflict flag it returns without raising. *)
Theorem check_config_misjudges_flags :
  (mutually_exclusive_violated 15 = true ∧
   _check_config (with_policy 15) = (inr tt, with_policy 15)) ∧
  (mutually_exclusive_violated 1 = false ∧
   _check_config (with_policy 1)
   = (inl (ImproperlyConfigured list_editable_msg), with_policy 1)) ∧
  Forall (λ p, _check_config (with_policy p) = (inr tt, with_policy p))
         [Z.lor CONCURRENCY_LIST_EDITABLE_POLICY_SILENT CONCURRENCY_POLICY_RAISE;
          Z.lor CONCURRENCY_LIST_EDITABLE_POLICY_SILENT CONCURRENCY_POLICY_CALLBACK;
          Z.lor CONCURRENCY_LIST_EDITABLE_POLICY_ABORT_ALL CONCURRENCY_POLICY_RAISE;
          Z.lor CONCURRENCY_LIST_EDITABLE_POLICY_ABORT_ALL CONCURRENCY_POLICY_CALLBACK].
Proof.
  split; [| split].
  - split; [reflexivity |]. by rewrite (check_config_run _ 15).
  - split; [reflexivity |]. by rewrite (check_config_run _ 1).
  - repeat constructor; by erewrite check_config_run.
Qed.

(** ** [_set_attr] and [_handler] *)

Section Methods.

Variable get_callable : string → exn + value.

(** [_set_attr] on an instance whose [prefix] attribute is the string [p]. *)
Lemma set_attr_run st (p prefix_name : string) (v : value) :
  self st !! "prefix" = Some (VStr p) →
  _set_attr get_callable prefix_name v st =
    let name := slice_from (String.length p + 1) prefix_name in
    if String.eqb name "CALLBACK" then
      match resolve_callback get_callable v with
      | inl e => (inl e, st)
      | inr f => (inr tt, store name v (store "_callback" f st))
      end
    else (inr tt, store name v st).
Proof.
  intros Hp. unfold _set_attr, mbind, M_bind, get_self. rewrite Hp. simpl.
  destruct (String.eqb _ "CALLBACK"); [| done].
  destruct v as [| b | n | s | f]; simpl; try done.
  unfold lift. by destruct (get_callable s).
Qed.

Lemma handler_run st (p setting : string) (v : value) :
  self st !! "prefix" = Some (VStr p) →
  _handler get_callable setting v st =
    if startswith setting p then _set_attr get_callable setting v st
    else (inr tt, st).
Proof.
  intros Hp. unfold _handler, mbind, M_bind, get_self. rewrite Hp. simpl.
  by destruct (startswith setting p).
Qed.

(** C4. When [_set_attr] is called for the [CALLBACK] setting: a string
    is resolved with [get_callable] and the result is stored in
    [_callback] (an exception of [get_callable] propagates and nothing is
    stored); a callable is stored in [_callback] as it is; any other value
    raises [ImproperlyConfigured]. *)
Theorem set_attr_callback st (p prefix_name : string) (v : value) :
  self st !! "prefix" = Some (VStr p) →
  slice_from (String.length p + 1) prefix_name = "CALLBACK" →
  (∀ s f, v = VStr s → get_callable s = inr f →
     ∃ st', _set_attr get_callable prefix_name v st = (inr tt, st') ∧
            self st' !! "_callback" = Some f) ∧
  (∀ s e, v = VStr s → get_callable s = inl e →
     _set_attr get_callable prefix_name v st = (inl e, st)) ∧
  (callable v = true →
     ∃ st', _set_attr get_callable prefix_name v st = (inr tt, st') ∧
            self st' !! "_callback" = Some v) ∧
  (is_string v = false → callable v = false →
     ∃ msg st', _set_attr get_callable prefix_name v st
                = (inl (ImproperlyConfigured msg), st')).
Proof.
  intros Hp Hname. rewrite (set_attr_run st p prefix_name v Hp). simpl.
  rewrite Hname. simpl. repeat split.
  - intros s f -> Hs. simpl. rewrite Hs. eexists. split; [done |].
    simpl. by rewrite lookup_insert_ne, lookup_insert_eq.
  - intros s e -> Hs. simpl. by rewrite Hs.
  - intros Hc. destruct v; try done. simpl. eexists. split; [done |].
    simpl. by rewrite lookup_insert_ne, lookup_insert_eq.
  - intros Hs Hc. destruct v; try done; simpl; eauto.
Qed.

(** C9. [_set_attr] for the [CALLBACK] setting with a value that is
    neither a string nor callable raises [ImproperlyConfigured] and the
    state is the one it was called in: no attribute of the instance, so
    neither [_callback] nor [CALLBACK], has been assigned. *)
Theorem set_attr_callback_rejected st (p prefix_name : string) (v : value) :
  self st !! "prefix" = Some (VStr p) →
  slice_from (String.length p + 1) prefix_name = "CALLBACK" →
  is_string v = false → callable v = false →
  ∃ st', _set_attr get_callable prefix_name v st
         = (inl (ImproperlyConfigured callback_msg), st') ∧
         st' = st ∧
         self st' !! "_callback" = self st !! "_callback" ∧
         self st' !! "CALLBACK" = self st !! "CALLBACK".
Proof.
  intros Hp Hname Hs Hc. exists st.
  rewrite (set_attr_run st p prefix_name v Hp). simpl.
  rewrite Hname. simpl. by destruct v.
Qed.

(** C8. A notification whose setting name does not start with the
    instance's prefix leaves the state, and so every attribute of the
    instance, as it was; the handler returns normally. *)
Theorem handler_other_prefix st (p setting : string) (v : value) :
  self st !! "prefix" = Some (VStr p) →
  startswith setting p = false →
  _handler get_callable setting v st = (inr tt, st).
Proof.
  intros Hp Hsw. by rewrite (handler_run st p setting v Hp), Hsw.
Qed.

(** C5, amended. On an instance whose prefix is [p], a notification for
    the setting [p + '_' + NAME] sets the attribute [NAME] to the new
    value when [NAME] is not [CALLBACK], or the value is callable, or it
    is a string that [get_callable] resolves.  For [CALLBACK] with any
    other value the handler raises and assigns nothing. *)
Theorem handler_updates st (p name : string) (v : value) :
  self st !! "prefix" = Some (VStr p) →
  (name ≠ "CALLBACK" ∨ callable v = true ∨
   (∃ s f, v = VStr s ∧ get_callable s = inr f) →
     ∃ st', _handler get_callable (p +:+ "_" +:+ name) v st = (inr tt, st') ∧
            self st' !! name = Some v) ∧
  (name = "CALLBACK" → is_string v = false → callable v = false →
     _handler get_callable (p +:+ "_" +:+ name) v st
     = (inl (ImproperlyConfigured callback_msg), st)) ∧
  (name = "CALLBACK" → ∀ s e, v = VStr s → get_callable s = inl e →
     _handler get_callable (p +:+ "_" +:+ name) v st = (inl e, st)).
Proof.
  intros Hp.
  rewrite (handler_run st p _ v Hp), startswith_app.
  rewrite (set_attr_run st p _ v Hp). simpl. rewrite slice_prefixed.
  split; [| split].
  - intros Hok. destruct (String.eqb_spec name "CALLBACK") as [-> | Hne].
    + assert (∃ f, resolve_callback get_callable v = inr f) as [f ->].
      { destruct Hok as [? | [Hc | (s & f & -> & Hs)]]; [done | |].
        - destruct v; try done. by eexists.
        - exists f. by simpl. }
      eexists. split; [done |]. simpl. by rewrite lookup_insert_eq.
    + eexists. split; [done |]. simpl. by rewrite lookup_insert_eq.
  - intros -> Hs Hc. simpl. by destruct v.
  - intros -> s e -> Hs. simpl. by rewrite Hs.
Qed.

End Methods.

(** ** [__init__] *)

Lemma defaults_keys_ok : keys_ok defaults.
Proof.
  split; [by repeat constructor |].
  apply (bool_decide_unpack (NoDup defaults.*1)). by vm_compute.
Qed.

Lemma upper_not_prefix (n : string) : upper n = n → n ≠ "prefix".
Proof. by intros H ->. Qed.

Lemma upper_not_callback_attr (n : string) : upper n = n → n ≠ "_callback".
Proof. by intros H ->. Qed.

Lemma for_each_cons {A : Type} (body : A → M unit) (x : A) (l : list A) st :
  for_each body (x :: l) st =
    match body x st with
    | (inl e, st1) => (inl e, st1)
    | (inr _, st1) => for_each body l st1
    end.
Proof. reflexivity. Qed.

Lemma for_each_app {A : Type} (body : A → M unit) (l1 l2 : list A) st :
  for_each body (l1 ++ l2) st = (for_each body l1 ;; for_each body l2) st.
Proof.
  revert st. induction l1 as [|x l1 IH]; intros st; [done |].
  simpl. unfold mbind, M_bind in *. destruct (body x st) as [[e|[]] st1]; [done |].
  apply IH.
Qed.

(** The attribute names of a constructed instance. *)
Lemma attr_names_elem (k : string) :
  k ∈ (list_to_set defaults.*1 ∪ {[ "prefix"; "_callback" ]} : gset string)
  ↔ k ∈ defaults.*1 ∨ k = "prefix" ∨ k = "_callback".
Proof.
  rewrite elem_of_union, elem_of_list_to_set, elem_of_union, !elem_of_singleton.
  done.
Qed.

Section Construction.

Variable get_callable : string → exn + value.
Variable p : string.

Lemma init_step_run st (name : string) (dflt : value) :
  self st !! "prefix" = Some (VStr p) → upper name = name →
  init_step get_callable (name, dflt) st =
    let key := settings_key p name in
    let v := resolved p st name dflt in
    if String.eqb name "CALLBACK" then
      match resolve_callback get_callable v with
      | inl e => (inl e, st)
      | inr f => (inr tt, loaded_entry key name v (store "_callback" f st))
      end
    else (inr tt, loaded_entry key name v st).
Proof.
  intros Hp Hup. unfold init_step, mbind, M_bind, get_self. rewrite Hp. simpl.
  fold (settings_key p name).
  rewrite (set_attr_run get_callable st p _ _ Hp). simpl.
  rewrite slice_settings_key, Hup. unfold resolved.
  destruct (String.eqb name "CALLBACK"); [| done].
  by destruct (resolve_callback _ _).
Qed.

(** What one successful turn of the loop has done. *)
Lemma init_step_ok st st1 (name : string) (dflt : value) :
  self st !! "prefix" = Some (VStr p) → upper name = name →
  init_step get_callable (name, dflt) st = (inr tt, st1) →
  let v := resolved p st name dflt in
  self st1 !! name = Some v ∧
  settings st1 = <[settings_key p name := v]> (settings st) ∧
  (∀ k, k ≠ name → k ≠ "_callback" → self st1 !! k = self st !! k) ∧
  (if decide (name = "CALLBACK") then is_Some (self st1 !! "_callback")
   else self st1 !! "_callback" = self st !! "_callback") ∧
  sent st1 = sent st ++ [(settings_key p name, v)] ∧
  connected st1 = connected st.
Proof.
  intros Hp Hup. rewrite (init_step_run st name dflt Hp Hup).
  pose proof (upper_not_callback_attr name Hup) as Hcb.
  cbv zeta. destruct (decide (name = "CALLBACK")) as [-> | Hne].
  - rewrite String.eqb_refl.
    destruct (resolve_callback _ _) as [e | f]; [done |].
    intros [= <-]. unfold loaded_entry, store. cbn [self settings sent connected].
    repeat split; [by rewrite lookup_insert_eq | |].
    + intros k Hk1 Hk2. by rewrite !lookup_insert_ne.
    + rewrite lookup_insert_ne, lookup_insert_eq by done. by eexists.
  - apply String.eqb_neq in Hne as Hneb. rewrite Hneb.
    intros [= <-]. unfold loaded_entry. cbn [self settings sent connected].
    repeat split; [by rewrite lookup_insert_eq | |].
    + intros k Hk1 Hk2. by rewrite lookup_insert_ne.
    + by rewrite lookup_insert_ne.
Qed.

(** The state after a loop over [l] that did not raise. *)
Lemma for_each_init_ok (l : list (string * value)) : ∀ st st',
  keys_ok l → self st !! "prefix" = Some (VStr p) →
  for_each (init_step get_callable) l st = (inr tt, st') →
  (∀ n d, (n, d) ∈ l →
     self st' !! n = Some (resolved p st n d) ∧
     settings st' !! settings_key p n = Some (resolved p st n d)) ∧
  (∀ k, k ∉ settings_key p <$> l.*1 → settings st' !! k = settings st !! k) ∧
  (∀ k, k ∉ l.*1 → k ≠ "_callback" → self st' !! k = self st !! k) ∧
  (if decide ("CALLBACK" ∈ l.*1) then is_Some (self st' !! "_callback")
   else self st' !! "_callback" = self st !! "_callback") ∧
  sent st' = sent st ++ ((λ e, (settings_key p e.1, resolved p st e.1 e.2)) <$> l) ∧
  connected st' = connected st.
Proof.
  induction l as [| [n0 d0] l IH]; intros st st' [Hup Hnd] Hp Hrun.
  { injection Hrun as <-. rewrite app_nil_r. split_and!; try done.
    by intros n d ?%elem_of_nil. }
  apply Forall_cons in Hup as [Hup0 Hup]. simpl in Hup0.
  rewrite fmap_cons in Hnd. apply NoDup_cons in Hnd as [Hn0 Hnd].
  rewrite for_each_cons in Hrun.
  destruct (init_step get_callable (n0, d0) st) as [[e | []] st1] eqn:Hstep;
    [done |].
  destruct (init_step_ok st st1 n0 d0 Hp Hup0 Hstep)
    as (H0self & H0set & H0frame & H0cb & H0sent & H0conn).
  assert (Hp1 : self st1 !! "prefix" = Some (VStr p)).
  { rewrite H0frame; [done | |done]. intros E. by apply (upper_not_prefix n0). }
  destruct (IH st1 st' (conj Hup Hnd) Hp1 Hrun)
    as (Hin & Hset & Hframe & Hcb & Hsent & Hconn).
  rewrite Forall_forall in Hup.
  assert (Hkey : ∀ n d, (n, d) ∈ l → settings_key p n0 ≠ settings_key p n).
  { intros n d Hl E. apply settings_key_inj in E; [| done | apply (Hup _ Hl)].
    subst n0. apply Hn0. apply list_elem_of_fmap. by exists (n, d). }
  assert (Hres : ∀ n d, (n, d) ∈ l → resolved p st1 n d = resolved p st n d).
  { intros n d Hl. unfold resolved. rewrite H0set, lookup_insert_ne; [done |].
    by apply (Hkey n d). }
  split_and!.
  - intros n d [[= -> ->] | Hl]%elem_of_cons.
    + split.
      * rewrite Hframe; [done | done |]. by apply upper_not_callback_attr.
      * rewrite Hset; [by rewrite H0set, lookup_insert_eq |].
        intros (n & E & ([n' d'] & -> & Hl)%list_elem_of_fmap)%list_elem_of_fmap.
        by apply (Hkey n' d').
    + rewrite <- (Hres n d Hl). by apply Hin.
  - intros k Hk. rewrite !fmap_cons, not_elem_of_cons in Hk.
    destruct Hk as [Hk0 Hk]. by rewrite Hset, H0set, lookup_insert_ne.
  - intros k Hk Hk'. rewrite fmap_cons, not_elem_of_cons in Hk.
    destruct Hk as [Hk0 Hk]. rewrite Hframe by done. by apply H0frame.
  - rewrite fmap_cons. cbn [fst]. destruct (decide (n0 = "CALLBACK")) as [-> | Hne].
    + rewrite decide_True by (apply elem_of_cons; by left).
      rewrite decide_False in Hcb by done. by rewrite Hcb.
    + destruct (decide ("CALLBACK" ∈ l.*1)) as [Hc | Hc].
      * by rewrite decide_True by (apply elem_of_cons; by right).
      * rewrite decide_False by (rewrite not_elem_of_cons; by split).
        by rewrite Hcb.
  - rewrite Hsent, H0sent, fmap_cons, <- app_assoc. simpl. do 2 f_equal.
    apply list_fmap_ext. intros i [n d] Hi. simpl. f_equal.
    apply Hres. by eapply list_elem_of_lookup_2.
  - by rewrite Hconn.
Qed.

(** Turns for keys other than [CALLBACK] never raise. *)
Lemma for_each_init_progress (l : list (string * value)) : ∀ st,
  keys_ok l → self st !! "prefix" = Some (VStr p) → "CALLBACK" ∉ l.*1 →
  ∃ st', for_each (init_step get_callable) l st = (inr tt, st').
Proof.
  induction l as [| [n0 d0] l IH]; intros st [Hup Hnd] Hp Hcb; [by eexists |].
  apply Forall_cons in Hup as [Hup0 Hup]. simpl in Hup0.
  rewrite fmap_cons in Hnd, Hcb. apply NoDup_cons in Hnd as [_ Hnd].
  apply not_elem_of_cons in Hcb as [Hne Hcb]. simpl in Hne.
  rewrite for_each_cons, (init_step_run st n0 d0 Hp Hup0). cbv zeta.
  assert (n0 ≠ "CALLBACK") as ->%String.eqb_neq by done.
  apply IH; [done | | done]. simpl.
  rewrite lookup_insert_ne; [done |]. by apply upper_not_prefix.
Qed.

Lemma AppSettings_run st :
  AppSettings get_callable p st =
    match for_each (init_step get_callable) defaults (init_state p st) with
    | (inl e, st1) => (inl e, st1)
    | (inr _, st1) => (inr tt, State (self st1) (settings st1) (sent st1) true)
    end.
Proof.
  unfold AppSettings, __init__, mbind, M_bind, init_state, set_self, connect.
  cbv beta iota. cbn [self settings sent connected].
  by destruct (for_each _ defaults _) as [[e | []] st1].
Qed.

Lemma init_state_prefix st : self (init_state p st) !! "prefix" = Some (VStr p).
Proof. apply lookup_insert_eq. Qed.

(** Whether construction raises is decided by the resolved [CALLBACK]
    alone: it raises what resolving the callback raises, and returns
    otherwise.  No other setting, [POLICY] included, is examined. *)
Lemma AppSettings_outcome st :
  fst (AppSettings get_callable p st) =
    match resolve_callback get_callable
            (resolved p st "CALLBACK" (VStr "concurrency.views.callback")) with
    | inl e => inl e
    | inr _ => inr tt
    end.
Proof.
  rewrite AppSettings_run.
  change defaults with (take 4 defaults ++ drop 4 defaults).
  rewrite for_each_app. unfold mbind, M_bind.
  assert (Hok4 : keys_ok (take 4 defaults)).
  { split; [by repeat constructor |].
    apply (bool_decide_unpack (NoDup (take 4 defaults).*1)). by vm_compute. }
  destruct (for_each_init_progress (take 4 defaults) (init_state p st) Hok4
              (init_state_prefix st)) as [st1 Hrun1].
  { apply (bool_decide_unpack ("CALLBACK" ∉ (take 4 defaults).*1)). by vm_compute. }
  rewrite Hrun1.
  destruct (for_each_init_ok (take 4 defaults) _ _ Hok4 (init_state_prefix st) Hrun1)
    as (_ & Hset & Hframe & _).
  assert (Hp1 : self st1 !! "prefix" = Some (VStr p)).
  { rewrite Hframe; [apply init_state_prefix | | done].
    apply (bool_decide_unpack ("prefix" ∉ (take 4 defaults).*1)). by vm_compute. }
  change (drop 4 defaults) with
    [("CALLBACK", VStr "concurrency.views.callback");
     ("HANDLER409", VStr "concurrency.views.conflict")].
  rewrite for_each_cons, (init_step_run st1 "CALLBACK" _ Hp1 eq_refl). cbv zeta.
  rewrite String.eqb_refl.
  replace (resolved p st1 "CALLBACK" (VStr "concurrency.views.callback"))
    with (resolved p st "CALLBACK" (VStr "concurrency.views.callback")).
  2:{ unfold resolved. rewrite Hset; [done |].
      intros (n & E & Hn)%list_elem_of_fmap.
      apply settings_key_inj in E; [subst n | done |].
      - revert Hn. apply (bool_decide_unpack ("CALLBACK" ∉ (take 4 defaults).*1)).
        by vm_compute.
      - revert Hn. simpl. rewrite !elem_of_cons, elem_of_nil.
        by intros [-> | [-> | [-> | [-> | []]]]]. }
  destruct (resolve_callback _ _) as [e | f]; [done |].
  rewrite for_each_cons, (init_step_run _ "HANDLER409" _); [done | | done].
  simpl. by rewrite !lookup_insert_ne.
Qed.

(** The state after a construction that returned. *)
Lemma AppSettings_ok st st' :
  AppSettings get_callable p st = (inr tt, st') →
  (∀ n d, (n, d) ∈ defaults →
     self st' !! n = Some (resolved p st n d) ∧
     settings st' !! settings_key p n = Some (resolved p st n d)) ∧
  (∀ k, k ∉ settings_key p <$> defaults.*1 → settings st' !! k = settings st !! k) ∧
  dom (self st') = list_to_set defaults.*1 ∪ {[ "prefix"; "_callback" ]} ∧
  self st' !! "prefix" = Some (VStr p) ∧
  sent st' = sent st ++
    ((λ e, (settings_key p e.1, resolved p st e.1 e.2)) <$> defaults) ∧
  connected st' = true.
Proof.
  rewrite AppSettings_run.
  destruct (for_each _ defaults _) as [[e | []] st1] eqn:Hrun; [done |].
  intros [= <-]. cbn [self settings sent connected].
  destruct (for_each_init_ok defaults _ _ defaults_keys_ok (init_state_prefix st) Hrun)
    as (Hin & Hset & Hframe & Hcb & Hsent & _).
  split_and!; try done.
  - apply set_eq. intros k. rewrite elem_of_dom, attr_names_elem.
    destruct (decide (k ∈ defaults.*1)) as [Hk | Hk].
    + split; [by left |]. intros _.
      apply list_elem_of_fmap in Hk as ([n d] & -> & Hk).
      destruct (Hin n d Hk) as [Hn _]. simpl. by rewrite Hn.
    + destruct (decide (k = "_callback")) as [-> | Hk'].
      * split; [by auto | by intros _].
      * rewrite (Hframe k Hk Hk'). simpl.
        destruct (decide (k = "prefix")) as [-> | Hk''].
        -- rewrite lookup_insert_eq. split; [by auto | by eexists].
        -- rewrite lookup_insert_ne, lookup_empty by done.
           split; [by intros [? [=]] | tauto].
  - rewrite Hframe; [apply init_state_prefix | | done].
    apply (bool_decide_unpack ("prefix" ∉ defaults.*1)). by vm_compute.
Qed.

End Construction.

(** ** Construction: what [AppSettings(prefix)] leaves behind *)

(** C3. After [AppSettings(prefix)] has returned, every key [NAME] of
    [defaults] is an attribute of the instance: it holds the value of the
    setting [(prefix + '_' + NAME).upper()] when the settings object
    defined it before the call, and the default otherwise. *)
Theorem init_loads_settings (get_callable : string → exn + value)
    (prefix : string) (st st' : state) (name : string) (dflt : value) :
  AppSettings get_callable prefix st = (inr tt, st') →
  (name, dflt) ∈ defaults →
  (∀ v, settings st !! upper (prefix +:+ "_" +:+ name) = Some v →
        self st' !! name = Some v) ∧
  (settings st !! upper (prefix +:+ "_" +:+ name) = None →
        self st' !! name = Some dflt).
Proof.
  intros Hrun Hin.
  destruct (AppSettings_ok get_callable prefix st st' Hrun) as (Hload & _).
  destruct (Hload name dflt Hin) as [Hself _]. unfold resolved, settings_key in Hself.
  split.
  - intros v Hv. by rewrite Hself, Hv.
  - intros Hv. by rewrite Hself, Hv.
Qed.

(** C7. After [AppSettings(prefix)] has returned, the settings object has
    the attribute [(prefix + '_' + NAME).upper()] for every key [NAME] of
    [defaults]: with the value it had when it was set before the call, with
    the default when it was absent; in both cases the value of the
    instance attribute [NAME]. *)
Theorem init_writes_settings (get_callable : string → exn + value)
    (prefix : string) (st st' : state) (name : string) (dflt : value) :
  AppSettings get_callable prefix st = (inr tt, st') →
  (name, dflt) ∈ defaults →
  (∀ v, settings st !! upper (prefix +:+ "_" +:+ name) = Some v →
        settings st' !! upper (prefix +:+ "_" +:+ name) = Some v) ∧
  (settings st !! upper (prefix +:+ "_" +:+ name) = None →
        settings st' !! upper (prefix +:+ "_" +:+ name) = Some dflt) ∧
  settings st' !! upper (prefix +:+ "_" +:+ name) = self st' !! name.
Proof.
  intros Hrun Hin.
  destruct (AppSettings_ok get_callable prefix st st' Hrun) as (Hload & _).
  destruct (Hload name dflt Hin) as [Hself Hset].
  unfold resolved, settings_key in Hself, Hset.
  split_and!.
  - intros v Hv. by rewrite Hset, Hv.
  - intros Hv. by rewrite Hset, Hv.
  - by rewrite Hset, Hself.
Qed.

(** C6, amended. For an upper-case prefix the settings key of every key
    [NAME] of [defaults] is [prefix + '_' + NAME], and dropping its first
    [len(prefix) + 1] characters gives [NAME] back; the attribute names of a
    constructed instance are the keys of [defaults] together with [prefix]
    and [_callback]. *)
Theorem init_attribute_names (get_callable : string → exn + value)
    (prefix : string) (st st' : state) :
  upper prefix = prefix →
  AppSettings get_callable prefix st = (inr tt, st') →
  (∀ name dflt, (name, dflt) ∈ defaults →
     upper (prefix +:+ "_" +:+ name) = prefix +:+ "_" +:+ name ∧
     slice_from (String.length prefix + 1) (upper (prefix +:+ "_" +:+ name)) = name) ∧
  dom (self st') = list_to_set defaults.*1 ∪ {[ "prefix"; "_callback" ]}.
Proof.
  intros Hup Hrun. split.
  - intros name dflt Hin.
    assert (upper name = name) as Hname.
    { destruct defaults_keys_ok as [Hkeys _]. rewrite Forall_forall in Hkeys.
      apply (Hkeys _ Hin). }
    split.
    + rewrite upper_app, Hup. f_equal. by rewrite (upper_app "_" name), Hname.
    + fold (settings_key prefix name). by rewrite slice_settings_key.
  - by destruct (AppSettings_ok get_callable prefix st st' Hrun) as (_ & _ & Hdom & _).
Qed.

(** C1. Construction does not examine [POLICY]: whatever value the
    settings give it, also one that includes both flags of a group, when
    the [CALLBACK] setting resolves [AppSettings(prefix)] returns and the
    instance holds that [POLICY].  [__init__] never calls [_check_config]. *)
Theorem init_accepts_any_policy (get_callable : string → exn + value)
    (prefix : string) (st : state) (policy f : value) :
  settings st !! upper (prefix +:+ "_" +:+ "POLICY") = Some policy →
  resolve_callback get_callable
    (default (VStr "concurrency.views.callback")
       (settings st !! upper (prefix +:+ "_" +:+ "CALLBACK"))) = inr f →
  ∃ st', AppSettings get_callable prefix st = (inr tt, st') ∧
         self st' !! "POLICY" = Some policy.
Proof.
  intros Hpol Hcb.
  pose proof (AppSettings_outcome get_callable prefix st) as Hout.
  unfold resolved, settings_key in Hout. rewrite Hcb in Hout.
  destruct (AppSettings get_callable prefix st) as [r st'] eqn:Hrun.
  simpl in Hout. subst r. exists st'. split; [done |].
  destruct (AppSettings_ok get_callable prefix st st' Hrun) as (Hload & _).
  destruct (Hload "POLICY" (VInt 5)) as [Hself _].
  { apply list_elem_of_In. simpl. auto. }
  rewrite Hself. unfold resolved, settings_key. by rewrite Hpol.
Qed.

(** ** Concrete runs *)

Lemma init_accepts_any_policy_witness :
  mutually_exclusive_violated 3 = true ∧
  ∃ st', AppSettings resolve_any "CONCURRENCY" (fresh conflicting_settings)
         = (inr tt, st') ∧
         self st' !! "POLICY" = Some (VInt 3).
Proof.
  split; [reflexivity |].
  apply (init_accepts_any_policy resolve_any "CONCURRENCY"
           (fresh conflicting_settings) (VInt 3)
           (VCallable "concurrency.views.callback")); by vm_compute.
Defined.

Lemma conf_constructed : fst conf = inr tt.
Proof. by vm_compute. Qed.

Lemma conf_run : AppSettings resolve_any "CONCURRENCY" (fresh ∅) = (inr tt, snd conf).
Proof. by vm_compute. Qed.

Lemma enabled_in_defaults : ("ENABLED", VBool true) ∈ defaults.
Proof. apply list_elem_of_In. simpl. auto. Qed.

Lemma init_loads_settings_witness : self (snd conf) !! "ENABLED" = Some (VBool true).
Proof.
  apply (proj2 (init_loads_settings resolve_any "CONCURRENCY" (fresh ∅) (snd conf)
                  "ENABLED" (VBool true) conf_run enabled_in_defaults)).
  by vm_compute.
Defined.

Lemma init_writes_settings_witness :
  settings (snd conf) !! "CONCURRENCY_ENABLED" = Some (VBool true).
Proof.
  apply (proj1 (proj2 (init_writes_settings resolve_any "CONCURRENCY" (fresh ∅)
                         (snd conf) "ENABLED" (VBool true) conf_run
                         enabled_in_defaults))).
  by vm_compute.
Defined.

Lemma init_attribute_names_witness :
  dom (self (snd conf)) = list_to_set defaults.*1 ∪ {[ "prefix"; "_callback" ]}.
Proof.
  apply (proj2 (init_attribute_names resolve_any "CONCURRENCY" (fresh ∅) (snd conf)
                  eq_refl conf_run)).
Defined.

(** C6, counterexample. The instance [conf] has the attribute [_callback],
    which is not a key of [defaults]: the names written during construction
    are not exactly the keys of [defaults]. *)
Lemma init_writes_more_names :
  fst conf = inr tt ∧
  upper "CONCURRENCY" = "CONCURRENCY" ∧
  "_callback" ∈ dom (self (snd conf)) ∧
  dom (self (snd conf)) ≠ list_to_set defaults.*1.
Proof.
  assert (Hin : "_callback" ∈ dom (self (snd conf))).
  { apply elem_of_dom. exists (VCallable "concurrency.views.callback"). by vm_compute. }
  split_and!; [by vm_compute | by vm_compute | done |].
  intros Heq. rewrite Heq, elem_of_list_to_set in Hin.
  revert Hin. apply (bool_decide_unpack ("_callback" ∉ defaults.*1)). by vm_compute.
Qed.

(** C5, counterexample. A notification that sets [CONCURRENCY_CALLBACK] to
    the integer 100 reaches the handler of [conf]; the handler raises and
    the attribute [CALLBACK] keeps its value. *)
Lemma handler_rejects_int_callback :
  let setting := "CONCURRENCY" +:+ "_" +:+ "CALLBACK" in
  let r := _handler resolve_any setting (VInt 100) (snd conf) in
  self (snd conf) !! "prefix" = Some (VStr "CONCURRENCY") ∧
  fst r = inl (ImproperlyConfigured callback_msg) ∧
  self (snd r) !! "CALLBACK" = Some (VStr "concurrency.views.callback") ∧
  self (snd r) !! "CALLBACK" ≠ Some (VInt 100).
Proof. cbv zeta. split_and!; by vm_compute. Qed.

Lemma set_attr_callback_witness :
  ∃ st', _set_attr resolve_any "APP_CALLBACK" (VStr "views.on_conflict") app
         = (inr tt, st') ∧
         self st' !! "_callback" = Some (VCallable "views.on_conflict").
Proof.
  apply (proj1 (set_attr_callback resolve_any app "APP" "APP_CALLBACK"
                  (VStr "views.on_conflict") eq_refl eq_refl)
           "views.on_conflict" (VCallable "views.on_conflict") eq_refl eq_refl).
Defined.

Lemma set_attr_callback_rejected_witness :
  ∃ st', _set_attr resolve_any "APP_CALLBACK" (VInt 100) app
         = (inl (ImproperlyConfigured callback_msg), st') ∧
         st' = app ∧
         self st' !! "_callback" = self app !! "_callback" ∧
         self st' !! "CALLBACK" = self app !! "CALLBACK".
Proof.
  apply (set_attr_callback_rejected resolve_any app "APP" "APP_CALLBACK" (VInt 100)
           eq_refl eq_refl eq_refl eq_refl).
Defined.

Lemma handler_other_prefix_witness :
  _handler resolve_any "DEBUG" (VBool true) app = (inr tt, app).
Proof.
  apply (handler_other_prefix resolve_any app "APP" "DEBUG" (VBool true)
           eq_refl eq_refl).
Defined.

Lemma handler_updates_witness :
  ∃ st', _handler resolve_any ("APP" +:+ "_" +:+ "ENABLED") (VBool false) app
         = (inr tt, st') ∧
         self st' !! "ENABLED" = Some (VBool false).
Proof.
  apply (proj1 (handler_updates resolve_any app "APP" "ENABLED" (VBool false)
                  eq_refl)).
  left. discriminate.
Defined.

(** ** Further properties of [_check_config] *)

(** X1. On an integer [POLICY], [_check_config] raises
    [ImproperlyConfigured] exactly for the values 0, 1, 2, 3, 4, 8 and 12;
    for every other integer, negative ones and those with a bit outside
    the four flags included, it returns. *)
Theorem check_config_raises_exactly (st : state) (p : Z) :
  self st !! "POLICY" = Some (VInt p) →
  (p ∈ [0; 1; 2; 3; 4; 8; 12] →
     ∃ msg, _check_config st = (inl (ImproperlyConfigured msg), st)) ∧
  (p ∉ [0; 1; 2; 3; 4; 8; 12] → _check_config st = (inr tt, st)).
Proof.
  intros HP. split.
  - intros Hin. by apply (check_config_raises_iff st p HP).
  - intros Hnin.
    assert (Hno : ¬ ∃ msg, _check_config st = (inl (ImproperlyConfigured msg), st))
      by (by rewrite (check_config_raises_iff st p HP)).
    rewrite (check_config_run st p HP) in Hno |- *.
    destruct (Z.lor p _ =? _); [destruct Hno; by eexists |].
    destruct (Z.lor p _ =? _); [destruct Hno; by eexists | done].
Qed.

Lemma check_config_raises_exactly_witness :
  ∃ msg, _check_config (with_policy 4)
         = (inl (ImproperlyConfigured msg), with_policy 4).
Proof.
  apply (proj1 (check_config_raises_exactly (with_policy 4) 4 eq_refl)).
  apply list_elem_of_In. simpl. auto 8.
Defined.

(** X2. [_check_config] only reads: whatever the instance holds, and
    whether it returns or raises, the state after it is the state before. *)
Theorem check_config_reads_only (st : state) : snd (_check_config st) = st.
Proof.
  unfold _check_config, mbind, M_bind, get_self.
  destruct (self st !! "POLICY") as [v |] eqn:HP; [| done].
  destruct v as [| b | n | s | f]; simpl; try done.
  - destruct (Z.lor (Z.b2z b) _ =? _); [done |]. simpl. rewrite HP. simpl.
    by destruct (Z.lor (Z.b2z b) _ =? _).
  - destruct (Z.lor n _ =? _); [done |]. simpl. rewrite HP. simpl.
    by destruct (Z.lor n _ =? _).
Qed.

(** ** Further properties of [_set_attr] and [_handler] *)

(** A string that starts with [p] after [p] has been upper-cased: [p] was
    upper case already. *)
Lemma startswith_upper (p s : string) :
  startswith (upper p +:+ s) p = true → upper p = p.
Proof.
  unfold startswith. induction p as [|c p IH]; [done |].
  cbn [upper String.prefix]. change (String (upper_ascii c) (upper p) +:+ s)
    with (String (upper_ascii c) (upper p +:+ s)). cbn [String.prefix].
  destruct (ascii_dec c (upper_ascii c)) as [Hc | Hc]; [| done].
  intros H. by rewrite <- Hc, (IH H).
Qed.

Lemma startswith_refl (p : string) : startswith p p = true.
Proof.
  unfold startswith. induction p as [|c p IH]; [done |].
  cbn [String.prefix]. by destruct (ascii_dec c c).
Qed.

Lemma slice_past_end (p : string) : slice_from (String.length p + 1) p = "".
Proof. induction p as [|c p IH]; [done | exact IH]. Qed.

Lemma slice_after_char (p : string) (c : ascii) (name : string) :
  slice_from (String.length p + 1) (p +:+ String c name) = name.
Proof. induction p as [|x p IH]; [done | exact IH]. Qed.

Section HandlerProperties.

Variable get_callable : string → exn + value.

(** X3. The handler writes to the instance only: whatever the
    notification and whether it returns or raises, the settings object,
    the signals sent and the connection of the handler are as before. *)
Theorem handler_touches_instance_only (setting : string) (v : value) (st : state) :
  let st' := snd (_handler get_callable setting v st) in
  settings st' = settings st ∧ sent st' = sent st ∧ connected st' = connected st.
Proof.
  cbv zeta. destruct (self st !! "prefix") as [pv |] eqn:Hp.
  2:{ unfold _handler, mbind, M_bind, get_self. by rewrite Hp. }
  destruct pv as [| b | n | p | f];
    try (unfold _handler, mbind, M_bind, get_self; by rewrite Hp).
  rewrite (handler_run get_callable st p setting v Hp).
  destruct (startswith setting p); [| done].
  rewrite (set_attr_run get_callable st p setting v Hp). cbv zeta.
  destruct (String.eqb _ "CALLBACK"); [| done].
  by destruct (resolve_callback get_callable v).
Qed.

(** X4. The key [__init__] builds is upper case but the handler compares
    with the prefix as given: on an instance whose prefix is not upper
    case, a notification for one of its own settings keys
    [(prefix + '_' + NAME).upper()] is ignored. *)
Theorem handler_ignores_own_key (st : state) (p name : string) (v : value) :
  self st !! "prefix" = Some (VStr p) →
  upper p ≠ p →
  _handler get_callable (upper (p +:+ "_" +:+ name)) v st = (inr tt, st).
Proof.
  intros Hp Hup. rewrite (handler_run get_callable st p _ v Hp), upper_app.
  destruct (startswith _ p) eqn:Hsw; [| done].
  by apply startswith_upper in Hsw.
Qed.

(** X5. The handler does not look at the character after the prefix: for
    a setting that is the prefix followed by any character [c] and a name
    other than [CALLBACK], the value is stored under that name; for the
    setting that is the prefix alone, it is stored under the empty name. *)
Theorem handler_separator_unchecked (st : state) (p : string) (c : ascii)
    (name : string) (v : value) :
  self st !! "prefix" = Some (VStr p) →
  (name ≠ "CALLBACK" →
     _handler get_callable (p +:+ String c name) v st = (inr tt, store name v st)) ∧
  _handler get_callable p v st = (inr tt, store "" v st).
Proof.
  intros Hp. split.
  - intros Hne%String.eqb_neq.
    rewrite (handler_run get_callable st p _ v Hp), startswith_app.
    rewrite (set_attr_run get_callable st p _ v Hp). cbv zeta.
    by rewrite slice_after_char, Hne.
  - rewrite (handler_run get_callable st p _ v Hp), startswith_refl.
    rewrite (set_attr_run get_callable st p _ v Hp). cbv zeta.
    by rewrite slice_past_end.
Qed.


End HandlerProperties.

Lemma handler_ignores_own_key_witness :
  _handler resolve_any (upper ("app" +:+ "_" +:+ "ENABLED")) (VBool false) lower_app
  = (inr tt, lower_app).
Proof.
  apply (handler_ignores_own_key resolve_any lower_app "app" "ENABLED"
           (VBool false) eq_refl).
  discriminate.
Defined.

Lemma handler_separator_unchecked_witness :
  _handler resolve_any ("APP" +:+ String "L" "E_X") (VInt 1) app
  = (inr tt, store "E_X" (VInt 1) app).
Proof.
  apply (proj1 (handler_separator_unchecked resolve_any app "APP" "L" "E_X"
                  (VInt 1) eq_refl)).
  discriminate.
Defined.


(** ** Further properties of [__init__] *)

Section ConstructionProperties.

Variable get_callable : string → exn + value.
Variable p : string.

(** The loop of [__init__] up to the turn for [CALLBACK], and the two
    ways it goes on from there. *)
Lemma AppSettings_split (st : state) :
  ∃ st1,
    connected st1 = false ∧
    self st1 !! "CALLBACK" = None ∧
    self st1 !! "_callback" = None ∧
    settings st1 !! settings_key p "CALLBACK" = settings st !! settings_key p "CALLBACK" ∧
    match resolve_callback get_callable
            (resolved p st "CALLBACK" (VStr "concurrency.views.callback")) with
    | inl e => AppSettings get_callable p st = (inl e, st1)
    | inr f => ∃ st', AppSettings get_callable p st = (inr tt, st') ∧
                      self st' !! "_callback" = Some f
    end.
Proof.
  rewrite AppSettings_run.
  change defaults with (take 4 defaults ++ drop 4 defaults).
  rewrite for_each_app. unfold mbind, M_bind.
  assert (Hok4 : keys_ok (take 4 defaults)).
  { split; [by repeat constructor |].
    apply (bool_decide_unpack (NoDup (take 4 defaults).*1)). by vm_compute. }
  assert (Hcb4 : "CALLBACK" ∉ (take 4 defaults).*1).
  { apply (bool_decide_unpack ("CALLBACK" ∉ (take 4 defaults).*1)). by vm_compute. }
  destruct (for_each_init_progress get_callable p (take 4 defaults) (init_state p st)
              Hok4 (init_state_prefix p st) Hcb4) as [st1 Hrun1].
  rewrite Hrun1. exists st1.
  destruct (for_each_init_ok get_callable p (take 4 defaults) _ _ Hok4
              (init_state_prefix p st) Hrun1)
    as (_ & Hset & Hframe & Hcb & _ & Hconn).
  rewrite decide_False in Hcb by done.
  assert (Hp1 : self st1 !! "prefix" = Some (VStr p)).
  { rewrite Hframe; [apply init_state_prefix | | done].
    apply (bool_decide_unpack ("prefix" ∉ (take 4 defaults).*1)). by vm_compute. }
  assert (Hkey : settings st1 !! settings_key p "CALLBACK"
                 = settings st !! settings_key p "CALLBACK").
  { rewrite Hset; [done |].
    intros (n & E & Hn)%list_elem_of_fmap.
    apply settings_key_inj in E; [by subst n | done |].
    revert Hn. simpl. rewrite !elem_of_cons, elem_of_nil.
    by intros [-> | [-> | [-> | [-> | []]]]]. }
  split_and!; [done | by rewrite Hframe | by rewrite Hcb | done |].
  change (drop 4 defaults) with
    [("CALLBACK", VStr "concurrency.views.callback");
     ("HANDLER409", VStr "concurrency.views.conflict")].
  rewrite for_each_cons, (init_step_run get_callable p st1 "CALLBACK" _ Hp1 eq_refl).
  cbv zeta. rewrite String.eqb_refl.
  replace (resolved p st1 "CALLBACK" (VStr "concurrency.views.callback"))
    with (resolved p st "CALLBACK" (VStr "concurrency.views.callback"))
    by (unfold resolved; by rewrite Hkey).
  destruct (resolve_callback _ _) as [e | f]; [done |].
  rewrite for_each_cons, (init_step_run get_callable p _ "HANDLER409" _); cycle 1.
  { simpl. by rewrite !lookup_insert_ne. }
  { done. }
  eexists. split; [done |]. simpl.
  by rewrite lookup_insert_ne, lookup_insert_ne, lookup_insert_eq.
Qed.

(** X7. Whether [AppSettings(prefix)] raises depends on the resolved
    [CALLBACK] alone: a string is given to [get_callable], whose exception
    is the constructor's; a callable is accepted; any other value raises
    [ImproperlyConfigured].  In all other cases the constructor returns. *)
Theorem construction_outcome (st : state) :
  fst (AppSettings get_callable p st) =
    match default (VStr "concurrency.views.callback")
            (settings st !! upper (p +:+ "_" +:+ "CALLBACK")) with
    | VStr path => match get_callable path with inl e => inl e | inr _ => inr tt end
    | VCallable _ => inr tt
    | _ => inl (ImproperlyConfigured callback_msg)
    end.
Proof.
  rewrite AppSettings_outcome. unfold resolved, settings_key.
  by destruct (default _ _).
Qed.

(** X8. When [AppSettings(prefix)] raises, the handler has not been
    connected, the instance has neither [CALLBACK] nor [_callback], and the
    settings object has for the [CALLBACK] key what it had before. *)
Theorem construction_failure (st st' : state) (e : exn) :
  AppSettings get_callable p st = (inl e, st') →
  connected st' = false ∧
  self st' !! "CALLBACK" = None ∧
  self st' !! "_callback" = None ∧
  settings st' !! upper (p +:+ "_" +:+ "CALLBACK")
  = settings st !! upper (p +:+ "_" +:+ "CALLBACK").
Proof.
  intros Hrun.
  destruct (AppSettings_split st) as (st1 & Hconn & Hc & Hcb & Hkey & Hres).
  destruct (resolve_callback _ _) as [e' | f].
  - rewrite Hres in Hrun. by injection Hrun as _ <-.
  - destruct Hres as (st2 & Hres & _). by rewrite Hres in Hrun.
Qed.

(** X9. After [AppSettings(prefix)] has returned, [_callback] is the
    callable the resolved [CALLBACK] stands for (the result of
    [get_callable] for a string, the value itself for a callable), the
    prefix is stored and the handler is connected. *)
Theorem construction_resolves_callback (st st' : state) :
  AppSettings get_callable p st = (inr tt, st') →
  ∃ f, resolve_callback get_callable
         (default (VStr "concurrency.views.callback")
            (settings st !! upper (p +:+ "_" +:+ "CALLBACK"))) = inr f ∧
       self st' !! "_callback" = Some f ∧
       self st' !! "prefix" = Some (VStr p) ∧
       connected st' = true.
Proof.
  intros Hrun.
  destruct (AppSettings_split st) as (st1 & _ & _ & _ & _ & Hres).
  unfold resolved, settings_key in Hres.
  destruct (resolve_callback _ _) as [e | f]; [by rewrite Hres in Hrun |].
  destruct Hres as (st2 & Hres & Hcb). rewrite Hres in Hrun.
  injection Hrun as <-. exists f.
  destruct (AppSettings_ok get_callable p st st2 Hres) as (_ & _ & _ & Hp & _ & Hc).
  done.
Qed.

(** X10. A construction that returned has sent one [setting_changed]
    signal for each key of [defaults], in the order of the loop, each with
    the settings key and the resolved value, after the signals sent
    before. *)
Theorem construction_signals (st st' : state) :
  AppSettings get_callable p st = (inr tt, st') →
  sent st' = sent st ++
    ((λ e, (upper (p +:+ "_" +:+ e.1),
            default e.2 (settings st !! upper (p +:+ "_" +:+ e.1)))) <$> defaults).
Proof.
  intros Hrun.
  by destruct (AppSettings_ok get_callable p st st' Hrun) as (_ & _ & _ & _ & Hs & _).
Qed.

(** X11. A construction that returned has changed the settings object
    only at its own keys: every attribute that is not
    [(prefix + '_' + NAME).upper()] for a key [NAME] of [defaults] is as it
    was, present or absent. *)
Theorem construction_settings_frame (st st' : state) (k : string) :
  AppSettings get_callable p st = (inr tt, st') →
  (∀ name dflt, (name, dflt) ∈ defaults → k ≠ upper (p +:+ "_" +:+ name)) →
  settings st' !! k = settings st !! k.
Proof.
  intros Hrun Hk.
  destruct (AppSettings_ok get_callable p st st' Hrun) as (_ & Hframe & _).
  apply Hframe. intros (n & -> & ([n' d] & -> & Hin)%list_elem_of_fmap)%list_elem_of_fmap.
  by apply (Hk n' d Hin).
Qed.

(** X12. Constructing again on what a construction left behind returns
    too, and leaves the settings object and the attributes of the instance
    exactly as the first construction left them. *)
Theorem construction_idempotent (st st1 : state) :
  AppSettings get_callable p st = (inr tt, st1) →
  ∃ st2, AppSettings get_callable p st1 = (inr tt, st2) ∧
         settings st2 = settings st1 ∧
         self st2 = self st1.
Proof.
  intros Hrun1.
  destruct (AppSettings_ok get_callable p st st1 Hrun1)
    as (Hload1 & Hframe1 & Hdom1 & Hp1 & _).
  assert (Hres : ∀ n d, (n, d) ∈ defaults → resolved p st1 n d = resolved p st n d).
  { intros n d Hin. destruct (Hload1 n d Hin) as [_ Hs].
    unfold resolved at 1. by rewrite Hs. }
  assert (Hcbin : ("CALLBACK", VStr "concurrency.views.callback") ∈ defaults).
  { apply list_elem_of_In. simpl. auto 8. }
  destruct (AppSettings_split st) as (sa & _ & _ & _ & _ & Hs1).
  destruct (AppSettings_split st1) as (sb & _ & _ & _ & _ & Hs2).
  rewrite (Hres _ _ Hcbin) in Hs2.
  destruct (resolve_callback _ _) as [e | f]; [by rewrite Hs1 in Hrun1 |].
  destruct Hs1 as (st1' & Hs1 & Hcb1). rewrite Hs1 in Hrun1. injection Hrun1 as Heq. subst st1'.
  destruct Hs2 as (st2 & Hrun2 & Hcb2). exists st2. split; [done |].
  destruct (AppSettings_ok get_callable p st1 st2 Hrun2)
    as (Hload2 & Hframe2 & Hdom2 & Hp2 & _).
  split; apply map_eq; intros k.
  - destruct (decide (k ∈ settings_key p <$> defaults.*1)) as [Hk | Hk].
    + apply list_elem_of_fmap in Hk as (n & -> & ([n' d] & -> & Hin)%list_elem_of_fmap).
      simpl. destruct (Hload2 n' d Hin) as [_ ->]. destruct (Hload1 n' d Hin) as [_ ->].
      by rewrite (Hres n' d Hin).
    + by apply Hframe2.
  - destruct (decide (k ∈ defaults.*1)) as [Hk | Hk].
    + apply list_elem_of_fmap in Hk as ([n d] & -> & Hin). simpl.
      destruct (Hload2 n d Hin) as [-> _]. destruct (Hload1 n d Hin) as [-> _].
      by rewrite (Hres n d Hin).
    + destruct (decide (k = "prefix")) as [-> | Hkp]; [by rewrite Hp1, Hp2 |].
      destruct (decide (k = "_callback")) as [-> | Hkc]; [by rewrite Hcb1, Hcb2 |].
      assert (k ∉ dom (self st1)) as ->%not_elem_of_dom
        by (rewrite Hdom1, attr_names_elem; tauto).
      assert (k ∉ dom (self st2)) as ->%not_elem_of_dom
        by (rewrite Hdom2, attr_names_elem; tauto).
      done.
Qed.

(** X13. An instance constructed on settings that give no [POLICY] holds
    the default [POLICY], and [_check_config] on it returns without
    raising. *)
Theorem default_policy_passes_check (st st' : state) :
  AppSettings get_callable p st = (inr tt, st') →
  settings st !! upper (p +:+ "_" +:+ "POLICY") = None →
  self st' !! "POLICY"
  = Some (VInt (Z.lor CONCURRENCY_LIST_EDITABLE_POLICY_SILENT CONCURRENCY_POLICY_RAISE)) ∧
  _check_config st' = (inr tt, st').
Proof.
  intros Hrun Hnone.
  destruct (AppSettings_ok get_callable p st st' Hrun) as (Hload & _).
  destruct (Hload "POLICY" (VInt 5)) as [Hself _].
  { apply list_elem_of_In. simpl. auto 8. }
  unfold resolved, settings_key in Hself. rewrite Hnone in Hself. simpl in Hself.
  split; [done |]. by rewrite (check_config_run st' 5 Hself).
Qed.

End ConstructionProperties.

Lemma bad_conf_run :
  AppSettings resolve_any "CONCURRENCY" (fresh bad_callback_settings)
  = (inl (ImproperlyConfigured callback_msg), snd bad_conf).
Proof. by vm_compute. Qed.

Lemma construction_failure_witness :
  connected (snd bad_conf) = false ∧
  self (snd bad_conf) !! "CALLBACK" = None ∧
  self (snd bad_conf) !! "_callback" = None ∧
  settings (snd bad_conf) !! upper ("CONCURRENCY" +:+ "_" +:+ "CALLBACK")
  = settings (fresh bad_callback_settings) !! upper ("CONCURRENCY" +:+ "_" +:+ "CALLBACK").
Proof.
  apply (construction_failure resolve_any "CONCURRENCY" (fresh bad_callback_settings)
           (snd bad_conf) (ImproperlyConfigured callback_msg) bad_conf_run).
Defined.

Lemma construction_resolves_callback_witness :
  ∃ f, resolve_callback resolve_any
         (default (VStr "concurrency.views.callback")
            (settings (fresh ∅) !! upper ("CONCURRENCY" +:+ "_" +:+ "CALLBACK"))) = inr f ∧
       self (snd conf) !! "_callback" = Some f ∧
       self (snd conf) !! "prefix" = Some (VStr "CONCURRENCY") ∧
       connected (snd conf) = true.
Proof.
  apply (construction_resolves_callback resolve_any "CONCURRENCY" (fresh ∅) (snd conf)
           conf_run).
Defined.

Lemma construction_signals_witness :
  sent (snd conf) = sent (fresh ∅) ++
    ((λ e, (upper ("CONCURRENCY" +:+ "_" +:+ e.1),
            default e.2 (settings (fresh ∅) !! upper ("CONCURRENCY" +:+ "_" +:+ e.1))))
       <$> defaults).
Proof.
  apply (construction_signals resolve_any "CONCURRENCY" (fresh ∅) (snd conf) conf_run).
Defined.

Lemma debug_not_a_key (name : string) (dflt : value) :
  (name, dflt) ∈ defaults → "DEBUG" ≠ upper ("CONCURRENCY" +:+ "_" +:+ name).
Proof.
  intros Hin%list_elem_of_In. simpl in Hin.
  repeat (destruct Hin as [[= <- <-] | Hin]; [discriminate |]). done.
Qed.

Lemma construction_settings_frame_witness :
  settings (snd conf) !! "DEBUG" = settings (fresh ∅) !! "DEBUG".
Proof.
  apply (construction_settings_frame resolve_any "CONCURRENCY" (fresh ∅) (snd conf)
           "DEBUG" conf_run debug_not_a_key).
Defined.

Lemma construction_idempotent_witness :
  ∃ st2, AppSettings resolve_any "CONCURRENCY" (snd conf) = (inr tt, st2) ∧
         settings st2 = settings (snd conf) ∧
         self st2 = self (snd conf).
Proof.
  apply (construction_idempotent resolve_any "CONCURRENCY" (fresh ∅) (snd conf)
           conf_run).
Defined.

Lemma policy_not_configured :
  settings (fresh ∅) !! upper ("CONCURRENCY" +:+ "_" +:+ "POLICY") = None.
Proof. by vm_compute. Qed.

Lemma default_policy_passes_check_witness :
  _check_config (snd conf) = (inr tt, snd conf).
Proof.
  apply (proj2 (default_policy_passes_check resolve_any "CONCURRENCY" (fresh ∅)
                  (snd conf) conf_run policy_not_configured)).
Defined.

(** ** [CALLBACK] and [_callback] stay together *)

(** X14. On an instance whose [_callback] is what its [CALLBACK] resolves
    to, this is still so after any notification, accepted, ignored or
    rejected, except one that names the attribute [_callback] itself. *)
Theorem handler_keeps_callback_in_sync (get_callable : string → exn + value)
    (st : state) (p setting : string) (v : value) :
  self st !! "prefix" = Some (VStr p) →
  slice_from (String.length p + 1) setting ≠ "_callback" →
  callback_in_sync get_callable st →
  callback_in_sync get_callable (snd (_handler get_callable setting v st)).
Proof.
  intros Hp Hname (v0 & f0 & Hv0 & Hr0 & Hf0).
  rewrite (handler_run get_callable st p setting v Hp).
  destruct (startswith setting p); [| by exists v0, f0].
  rewrite (set_attr_run get_callable st p setting v Hp). cbv zeta.
  destruct (String.eqb_spec (slice_from (String.length p + 1) setting) "CALLBACK")
    as [Heq | Hne].
  - destruct (resolve_callback get_callable v) as [e | f] eqn:Hr; [by exists v0, f0 |].
    exists v, f. rewrite Heq. simpl.
    by rewrite lookup_insert_eq, lookup_insert_ne, lookup_insert_eq.
  - exists v0, f0. simpl. by rewrite !lookup_insert_ne.
Qed.

Lemma conf_callback_in_sync : callback_in_sync resolve_any (snd conf).
Proof.
  exists (VStr "concurrency.views.callback"), (VCallable "concurrency.views.callback").
  by vm_compute.
Qed.

Lemma conf_prefix : self (snd conf) !! "prefix" = Some (VStr "CONCURRENCY").
Proof. by vm_compute. Qed.

Lemma handler_keeps_callback_in_sync_witness :
  callback_in_sync resolve_any
    (snd (_handler resolve_any "CONCURRENCY_CALLBACK" (VStr "views.on_conflict")
            (snd conf))).
Proof.
  apply (handler_keeps_callback_in_sync resolve_any (snd conf) "CONCURRENCY"
           "CONCURRENCY_CALLBACK" (VStr "views.on_conflict") conf_prefix).
  - discriminate.
  - exact conf_callback_in_sync.
Defined.
